(** * The [nios_extensible_attribute] module: model and verified properties

    The source is [plugins/modules/nios_extensible_attribute.py]: a function
    [options] that normalises a list of option entries, and the entry point
    [main] that declares the schema of an extensible attribute definition
    and hands the work to two collaborators, the automation framework
    ([AnsibleModule]) and the WAPI client ([WapiModule]).

    Python values are a small inductive type, dictionaries are finite maps,
    and the code is embedded as a program over the calls it makes to its
    collaborators; an environment answers the calls. *)

From stdpp Require Import gmap strings list fin_maps.

#[local] Set Warnings "-register-all".
#[local] Open Scope string_scope.

(** ** Python values *)

Inductive pyval : Type :=
| PNone
| PBool (b : bool)
| PInt (n : Z)
| PStr (s : string)
| PList (l : list pyval)
| PDict (d : gmap string pyval).

Abbreviation dict := (gmap string pyval).

(** A schema ([ib_spec], [argument_spec]): field name to field description. *)
Abbreviation schema := (gmap string (gmap string pyval)).

Fixpoint pyval_eq_dec (a b : pyval) {struct a} : Decision (a = b).
Proof.
  refine
    match a, b with
    | PNone, PNone => left _
    | PBool x, PBool y => cast_if (decide (x = y))
    | PInt x, PInt y => cast_if (decide (x = y))
    | PStr x, PStr y => cast_if (decide (x = y))
    | PList x, PList y => cast_if (@list_eq_dec _ pyval_eq_dec x y)
    | PDict x, PDict y => cast_if (@gmap_eq_dec _ _ _ _ pyval_eq_dec x y)
    | _, _ => right _
    end; abstract congruence.
Defined.

#[global] Instance pyval_eqdec : EqDecision pyval := pyval_eq_dec.

(** [v is None] *)
Definition is_none (v : pyval) : bool :=
  match v with PNone => true | _ => false end.

(** Python truth value, as [if v:] takes it. *)
Definition truthy (v : pyval) : bool :=
  match v with
  | PNone => false
  | PBool b => b
  | PInt n => negb (n =? 0)%Z
  | PStr s => negb (String.eqb s "")
  | PList l => negb (Nat.eqb (length l) 0)
  | PDict d => negb (Nat.eqb (size d) 0)
  end.

(** What [for item in v] iterates over; [None] where Python raises
    [TypeError].  A string yields its characters and a dictionary its keys. *)
Definition iterate (v : pyval) : option (list pyval) :=
  match v with
  | PList l => Some l
  | PStr s => Some ((λ c, PStr (String c "")) <$> String.list_ascii_of_string s)
  | PDict d => Some (PStr <$> (map_to_list d).*1)
  | PNone | PBool _ | PInt _ => None
  end.

(** [d.update(other)]: the entries of [other] win. *)
Definition update {V} (d other : gmap string V) : gmap string V := other ∪ d.

(** ** Collaborators and programs *)

(** The object [AnsibleModule(...)] returns: the validated parameters and
    the check-mode flag. *)
Record AnsibleModule : Type := { params : dict; check_mode : bool }.

(** The object [WapiModule(module)] returns; it keeps the module. *)
Record WapiModule : Type := { wapi_module : AnsibleModule }.

(** The calls the source makes outside itself. *)
Inductive call : Type :=
| AnsibleModule_init (argument_spec : schema) (supports_check_mode : bool)
| WapiModule_init (m : AnsibleModule)
| WapiModule_run (wapi : WapiModule) (ib_obj_type : string) (ib_spec : schema)
| exit_json (kwargs : dict)
| fail_json (kwargs : dict)
| raise (exception : string).

(** What a call gives back.  [exit_json] and [fail_json] end the process and
    a raised exception is not caught anywhere in this file: none of the three
    returns. *)
Definition answer (c : call) : Type :=
  match c with
  | AnsibleModule_init _ _ => AnsibleModule
  | WapiModule_init _ => WapiModule
  | WapiModule_run _ _ _ => dict
  | exit_json _ | fail_json _ | raise _ => Empty_set
  end.

(** A program: it returns, or makes a call and goes on with the answer. *)
Inductive prog (R : Type) : Type :=
| Ret (r : R)
| Do (c : call) (k : answer c → prog R).

Arguments Ret {R} r.
Arguments Do {R} c k.

Fixpoint bind {A B} (p : prog A) (f : A → prog B) : prog B :=
  match p with
  | Ret a => f a
  | Do c k => Do c (λ x, bind (k x) f)
  end.

Definition perform (c : call) : prog (answer c) := Do c Ret.

#[global] Instance prog_ret : MRet prog := @Ret.
#[global] Instance prog_bind : MBind prog := λ A B f p, bind p f.

(** An environment answers each call in a world [W] and may change the
    world; [None] is a call that does not return (the process has ended). *)
Definition env (W : Type) : Type := ∀ c : call, W → option (answer c) * W.

(** One run: the calls made in order, the value returned if the program
    returns, and the world it leaves. *)
Fixpoint exec {W R} (h : env W) (p : prog R) (w : W) : list call * option R * W :=
  match p with
  | Ret r => ([], Some r, w)
  | Do c k =>
      match h c w with
      | (Some a, w') => let '(t, r, w'') := exec h (k a) w' in (c :: t, r, w'')
      | (None, w') => ([c], None, w')
      end
  end.

Definition trace {W R} (h : env W) (p : prog R) (w : W) : list call := (exec h p w).1.1.
Definition final {W R} (h : env W) (p : prog R) (w : W) : W := (exec h p w).2.

(** ** [options] *)

Definition option_msg : dict :=
  {[ "msg" := PStr "one of `name` or `num` is required for option value" ]}.

(** [dict([(k, v) for k, v in iteritems(item) if v is not None])] *)
Definition strip_none (item : dict) : dict :=
  filter (λ kv, kv.2 ≠ PNone) item.

(** The body of [for item in module.params['options']], with the list
    [options] built so far.  [iteritems] of a value that is not a dictionary
    raises [AttributeError]. *)
Fixpoint options_loop (items : list pyval) (options : list dict) : prog (list dict) :=
  match items with
  | [] => Ret options
  | PDict item :: rest =>
      let opt := strip_none item in
      match opt !! "name", opt !! "num" with
      | None, None =>
          Do (fail_json option_msg) (λ _, options_loop rest (options ++ [opt]))
      | _, _ => options_loop rest (options ++ [opt])
      end
  | _ :: _ => Do (raise "AttributeError") (λ x, match x with end)
  end.

Definition options (module : AnsibleModule) : prog (list dict) :=
  match params module !! "options" with
  | None => Do (raise "KeyError") (λ x, match x with end)
  | Some v =>
      match iterate v with
      | None => Do (raise "TypeError") (λ x, match x with end)
      | Some items => options_loop items []
      end
  end.

(** ** [main] *)

Definition ib_spec : schema :=
  {[ "comment" := {[ "type" := PStr "str" ]};
     "default_value" := {[ "type" := PStr "str" ]};
     "list_values" := {[ "type" := PStr "list"; "elements" := PStr "dict" ]};
     "max" := {[ "type" := PStr "str" ]};
     "min" := {[ "type" := PStr "str" ]};
     "name" := {[ "type" := PStr "str"; "required" := PBool true;
                  "ib_req" := PBool true ]};
     "type" := {[ "type" := PStr "str"; "required" := PBool true;
                  "default" := PStr "STRING";
                  "choices" := PList [PStr "DATE"; PStr "EMAIL"; PStr "ENUM";
                                      PStr "INTEGER"; PStr "STRING"; PStr "URL"] ]} ]}.

Section nios_extensible_attribute.
(** [normalize_ib_spec] and [WapiModule.provider_spec] come from
    [module_utils/api.py], which is not part of the sources at hand. *)
Variable normalize_ib_spec : schema → schema.
Variable provider_spec : schema.

Definition argument_spec : schema :=
  let argument_spec : schema :=
    {[ "provider" := {[ "required" := PBool true ]};
       "state" := {[ "default" := PStr "present";
                     "choices" := PList [PStr "present"; PStr "absent"] ]} ]} in
  let argument_spec := update argument_spec (normalize_ib_spec ib_spec) in
  let argument_spec := update argument_spec provider_spec in
  argument_spec.

Definition main : prog unit :=
  module ← perform (AnsibleModule_init argument_spec true);
  wapi ← perform (WapiModule_init module);
  result ← perform (WapiModule_run wapi "extensibleattributedef" ib_spec);
  perform (exit_json result);;
  mret tt.

End nios_extensible_attribute.

(** ** The framework: parameter validation of [AnsibleModule]

    [AnsibleModule] belongs to the automation framework the module imports,
    not to this repository.  The model follows the order in which the
    framework treats a declared argument spec: the argument spec itself,
    which is refused when a field is [required] and has a default
    ("required and default are mutually exclusive"), unsupported
    parameters, defaults that are not [None] for absent parameters, the
    [required] check, conversion to the declared type, the [choices] check,
    and last a value ([None] without a default) for every declared
    parameter still absent.  Only the attributes [type], [elements], [required], [default]
    and [choices] are read; the conversion of one value to its declared type
    is left to [check_type].  The re-reading of the words "True" and "False"
    as booleans, which the framework tries when [choices] holds a boolean
    word, is not modelled. *)
Module Ansible.
Section validation.
(** [check_type wanted elements v]: the value [v], which is not [None],
    converted to the type [wanted] with items of type [elements], or [None]
    when the framework refuses it. *)
Variable check_type : option pyval → option pyval → pyval → option pyval.

(** [f.get(a)] *)
Definition get (f : dict) (a : string) : pyval := default PNone (f !! a).

(** The argument spec is well formed: no field is [required] and has a
    default that is not [None].  The framework looks at this for every
    field before it looks at any parameter. *)
Definition spec_ok (spec : schema) : bool :=
  bool_decide (map_Forall (λ k f, truthy (get f "required") → is_none (get f "default")) spec).

(** No parameter outside the argument spec. *)
Definition supported (spec : schema) (p : dict) : bool :=
  bool_decide (dom p ⊆ dom spec).

(** The default of a field, when it declares one that is not [None]. *)
Definition declared_default (f : dict) : option pyval :=
  if is_none (get f "default") then None else Some (get f "default").

(** First pass over the defaults: a parameter that is absent gets the
    default of its field when that is not [None]. *)
Definition set_defaults_pre (spec : schema) (p : dict) : dict :=
  p ∪ omap declared_default spec.

(** Every field marked [required] has a parameter by now. *)
Definition required_ok (spec : schema) (p : dict) : bool :=
  bool_decide (map_Forall (λ k f, truthy (get f "required") → is_Some (p !! k)) spec).

(** A value converted to the type of its field; [None] is left alone. *)
Definition convert (f : dict) (v : pyval) : option pyval :=
  if is_none v then Some v else check_type (f !! "type") (f !! "elements") v.

Definition convert_param (spec : schema) (k : string) (v : pyval) : option pyval :=
  match spec !! k with
  | Some f => convert f v
  | None => Some v
  end.

Definition types_ok (spec : schema) (p : dict) : bool :=
  bool_decide (map_Forall (λ k v, is_Some (convert_param spec k v)) p).

Definition convert_all (spec : schema) (p : dict) : dict :=
  map_imap (convert_param spec) p.

(** The [choices] check of one field on the parameter [ov], absent when
    [None]: a list must hold choices only, any other value must be a
    choice. *)
Definition value_ok (f : dict) (ov : option pyval) : bool :=
  match f !! "choices" with
  | None | Some PNone => true
  | Some (PList choices) =>
      match ov with
      | None => true
      | Some (PList items) => forallb (λ i, bool_decide (i ∈ choices)) items
      | Some v => bool_decide (v ∈ choices)
      end
  | Some _ => false
  end.

Definition values_ok (spec : schema) (p : dict) : bool :=
  bool_decide (map_Forall (λ k f, value_ok f (p !! k)) spec).

(** Last pass over the defaults: every field still without a parameter
    gets its default, [None] when it declares none. *)
Definition set_defaults (spec : schema) (p : dict) : dict :=
  p ∪ ((λ f, get f "default") <$> spec).

(** The validated parameters, or [None] when the framework fails the
    module with its validation message. *)
Definition validate (spec : schema) (args : dict) : option dict :=
  if negb (spec_ok spec) then None else
  if negb (supported spec args) then None else
  let p := set_defaults_pre spec args in
  if negb (required_ok spec p) then None else
  if negb (types_ok spec p) then None else
  let p := convert_all spec p in
  if negb (values_ok spec p) then None else
  Some (set_defaults spec p).

End validation.
End Ansible.

(** ** The world a module runs in *)

Inductive status : Type :=
| Running
| Exited (kwargs : dict)      (* [exit_json] *)
| Failed (kwargs : dict)      (* [fail_json] of the module or of the client *)
| Invalid                     (* [fail_json] of the framework: parameters refused *)
| Skipped                     (* check mode asked of a module without support *)
| Raised (exception : string).

(** The task's parameters and check-mode flag, the remote system, and how
    the process ended. *)
Record world (A : Type) : Type :=
  { task_args : dict; task_check_mode : bool; remote : A; ended : status }.

Arguments task_args {A} w.
Arguments task_check_mode {A} w.
Arguments remote {A} w.
Arguments ended {A} w.

Definition stop {A} (s : status) (w : world A) : world A :=
  {| task_args := task_args w; task_check_mode := task_check_mode w;
     remote := remote w; ended := s |}.

Definition with_remote {A} (a : A) (w : world A) : world A :=
  {| task_args := task_args w; task_check_mode := task_check_mode w;
     remote := a; ended := ended w |}.

(** A new process on the same task and the remote system as it was left. *)
Definition restart {A} (w : world A) : world A := stop Running w.

Section framework.
Context {A : Type}.
Variable check_type : option pyval → option pyval → pyval → option pyval.
(** [WapiModule.run] as a function of the remote system; [None] is a failure
    the client reports itself. *)
Variable client : WapiModule → string → schema → A → option dict * A.

(** The environment of a module run: the framework validates the task's
    parameters, the client works on the remote system. *)
Definition framework : env (world A) :=
  λ c w,
    match c return option (answer c) * world A with
    | AnsibleModule_init spec supports_check_mode =>
        match Ansible.validate check_type spec (task_args w) with
        | None => (None, stop Invalid w)
        | Some p =>
            if task_check_mode w && negb supports_check_mode
            then (None, stop Skipped w)
            else (Some {| params := p; check_mode := task_check_mode w |}, w)
        end
    | WapiModule_init m => (Some {| wapi_module := m |}, w)
    | WapiModule_run wapi ib_obj_type ib_spec =>
        match client wapi ib_obj_type ib_spec (remote w) with
        | (Some result, a) => (Some result, with_remote a w)
        | (None, a) => (None, stop (Failed ∅) (with_remote a w))
        end
    | exit_json kwargs => (None, stop (Exited kwargs) w)
    | fail_json kwargs => (None, stop (Failed kwargs) w)
    | raise e => (None, stop (Raised e) w)
    end.

End framework.

(** ** The reconciliation client *)

Module Wapi.

(** The remote system: the objects it holds, by object type and name. *)
Abbreviation appliance := (gmap (string * string) dict).

(** Modelled from the spec: the "desired" state that [WapiModule.run]
    compares with the remote one, here the fields of the schema that the
    parameters set. *)
Definition proposed (m : AnsibleModule) (ib_spec : schema) : dict :=
  filter (λ kv, kv.1 ∈ dom ib_spec ∧ kv.2 ≠ PNone) (params m).

(** Modelled from the spec: the "changed flag" of the result structure
    that [WapiModule.run] returns. *)
Definition changed (b : bool) : dict := {[ "changed" := PBool b ]}.

(** Modelled from the spec: [WapiModule.run] of [module_utils/api.py], the
    external reconciliation client, which is not among the sources.  The
    spec has it "comparing desired vs. actual state on the remote system and
    issuing create/update/delete calls accordingly" and returning "a result
    structure (changed flag plus diff/response data)".  For [present] the
    object is created or updated when the remote one differs; for [absent]
    it is deleted when it exists.  In check mode, which [main] asks the
    framework to support, the change is reported and the remote system is
    left as it is. *)
Definition run (wapi : WapiModule) (ib_obj_type : string) (ib_spec : schema)
    (a : appliance) : option dict * appliance :=
  let m := wapi_module wapi in
  match params m !! "name", params m !! "state" with
  | Some (PStr name), Some (PStr state) =>
      let obj := proposed m ib_spec in
      let actual := a !! (ib_obj_type, name) in
      if decide (state = "present") then
        if decide (actual = Some obj) then (Some (changed false), a)
        else if check_mode m then (Some (changed true), a)
        else (Some (changed true), <[(ib_obj_type, name) := obj]> a)
      else if decide (state = "absent") then
        match actual with
        | Some _ =>
            if check_mode m then (Some (changed true), a)
            else (Some (changed true), delete (ib_obj_type, name) a)
        | None => (Some (changed false), a)
        end
      else (None, a)
  | _, _ => (None, a)
  end.

End Wapi.

(** ** Instances of the collaborators for the examples *)

Module Example.

(** A converter that takes a value already of the declared type as it is and
    refuses every other. *)
Definition is_dict (v : pyval) : bool :=
  match v with PDict _ => true | _ => false end.

Definition check_type (wanted elements : option pyval) (v : pyval) : option pyval :=
  match wanted, v with
  | None, PStr _ | Some (PStr "str"), PStr _ => Some v
  | Some (PStr "dict"), PDict _ => Some v
  | Some (PStr "list"), PList l =>
      match elements with
      | Some (PStr "dict") => if forallb is_dict l then Some v else None
      | _ => Some v
      end
  | _, _ => None
  end.

(** An instance of [normalize_ib_spec]: it drops the attributes that only
    the client reads. *)
Definition normalize_ib_spec (ib_spec : schema) : schema :=
  filter (λ kv, kv.1 ∉ ["ib_req"; "transform"; "update"]) <$> ib_spec.

(** An instance of [WapiModule.provider_spec]. *)
Definition provider_spec : schema := {[ "provider" := {[ "type" := PStr "dict" ]} ]}.

Definition provider : pyval :=
  PDict {[ "host" := PStr "nios01"; "username" := PStr "admin";
           "password" := PStr "admin" ]}.

Definition task (args : dict) (a : Wapi.appliance) : world Wapi.appliance :=
  {| task_args := args; task_check_mode := false; remote := a; ended := Running |}.

(** A stand-in for the framework as a test of the module would use it:
    the constructor hands the task's parameters to the module as they are,
    without looking at the argument spec. *)
Definition mock : env (world Wapi.appliance) :=
  λ c w,
    match c return option (answer c) * world Wapi.appliance with
    | AnsibleModule_init _ _ =>
        (Some {| params := task_args w; check_mode := task_check_mode w |}, w)
    | WapiModule_init m => (Some {| wapi_module := m |}, w)
    | WapiModule_run wapi ib_obj_type ib_spec =>
        match Wapi.run wapi ib_obj_type ib_spec (remote w) with
        | (Some result, a) => (Some result, with_remote a w)
        | (None, a) => (None, stop (Failed ∅) (with_remote a w))
        end
    | exit_json kwargs => (None, stop (Exited kwargs) w)
    | fail_json kwargs => (None, stop (Failed kwargs) w)
    | raise e => (None, stop (Raised e) w)
    end.

End Example.

(** ** Vocabulary of the statements on [options] *)

(** An entry has the field [k] when the field is there and is not [None]. *)
Definition has_field (k : string) (item : dict) : Prop :=
  ∃ v, item !! k = Some v ∧ v ≠ PNone.

(** An entry is named when it has a [name] or a [num]. *)
Definition named (item : dict) : Prop :=
  has_field "name" item ∨ has_field "num" item.

#[global] Instance has_field_dec (k : string) (item : dict) : Decision (has_field k item).
Proof.
  unfold has_field. destruct (item !! k) as [v|].
  - destruct (decide (v = PNone)) as [Hv|Hv].
    + right. abstract (intros (v' & [= <-] & Hv'); done).
    + left. by exists v.
  - right. abstract (by intros (v' & [=] & _)).
Defined.

#[global] Instance named_dec (item : dict) : Decision (named item).
Proof. unfold named. apply _. Defined.

(** ** What [main] relies on in [module_utils/api.py] *)

(** The attributes of a field that the framework reads. *)
Definition framework_attrs : list string :=
  ["type"; "elements"; "required"; "default"; "choices"].

(** [normalize_ib_spec] keeps the fields of the schema and, in each field,
    the attributes the framework reads. *)
Definition keeps_declaration (normalize_ib_spec : schema → schema) : Prop :=
  dom (normalize_ib_spec ib_spec) = dom ib_spec
  ∧ ∀ k f f', ib_spec !! k = Some f → normalize_ib_spec ib_spec !! k = Some f' →
      ∀ a, a ∈ framework_attrs → f' !! a = f !! a.

(** [provider_spec] declares the connection provider and nothing else. *)
Definition declares_provider_only (provider_spec : schema) : Prop :=
  dom provider_spec ⊆ {[ "provider" ]}.

(** The description of the field [k] in a schema. *)
Definition declared (s : schema) (k : string) : dict := default ∅ (s !! k).






(** Equality of calls, of the ways a process ends and of worlds is
    decidable, so that closed statements on runs can be evaluated. *)
#[global] Instance AnsibleModule_eq_dec : EqDecision AnsibleModule.
Proof. solve_decision. Defined.

#[global] Instance WapiModule_eq_dec : EqDecision WapiModule.
Proof. solve_decision. Defined.

#[global] Instance call_eq_dec : EqDecision call.
Proof. solve_decision. Defined.

#[global] Instance status_eq_dec : EqDecision status.
Proof. solve_decision. Defined.

#[global] Instance world_eq_dec {A} `{EqDecision A} : EqDecision (world A).
Proof. solve_decision. Defined.

(** ** Example tasks *)

Module Tasks.
Import Example.

(** "Configure an extensible attribute", from the module's examples. *)
Definition my_string : dict :=
  {[ "name" := PStr "my_string"; "type" := PStr "STRING";
     "comment" := PStr "Created by ansible"; "state" := PStr "present";
     "provider" := provider ]}.

Definition listvalue (v : string) : pyval :=
  PDict {[ "_struct" := PStr "extensibleattributedef:listvalues"; "value" := PStr v ]}.

(** "Create an list extensible attribute", from the module's examples. *)
Definition my_list_values : list pyval :=
  [listvalue "one"; listvalue "two"; listvalue "three"].

Definition my_list : dict :=
  {[ "name" := PStr "my_list"; "type" := PStr "ENUM"; "state" := PStr "present";
     "list_values" := PList my_list_values; "provider" := provider ]}.

(** Tasks that leave a parameter out or give it a value outside its
    choices. *)
Definition without_type : dict :=
  {[ "name" := PStr "my_string"; "provider" := provider ]}.

Definition without_name : dict :=
  {[ "type" := PStr "STRING"; "provider" := provider ]}.




(** Option entries for [options]. *)
Definition by_name : dict := {[ "name" := PStr "domain-name"; "value" := PStr "example.org" ]}.
Definition by_num : dict := {[ "num" := PInt 15; "name" := PNone; "value" := PStr "example.org" ]}.
Definition unnamed : dict := {[ "name" := PNone; "value" := PStr "example.org" ]}.

Definition with_options (items : list dict) : AnsibleModule :=
  {| params := {[ "options" := PList (PDict <$> items) ]}; check_mode := false |}.

End Tasks.

(** ** Vocabulary of the further statements *)

(** The parameters a task may give: the fields of [ib_spec], [state] and
    [provider]. *)
Definition accepted_parameters : gset string :=
  {[ "comment"; "default_value"; "list_values"; "max"; "min"; "name"; "type";
     "state"; "provider" ]}.

(** The calls of a complete run of [main], in order. *)
Definition full_run (normalize_ib_spec : schema → schema) (provider_spec : schema)
    (module : AnsibleModule) (wapi : WapiModule) (result : dict) : list call :=
  [AnsibleModule_init (argument_spec normalize_ib_spec provider_spec) true;
   WapiModule_init module;
   WapiModule_run wapi "extensibleattributedef" ib_spec;
   exit_json result].

(** More example values. *)
Module Cases.
Import Example.

Definition module_of (v : pyval) : AnsibleModule :=
  {| params := {[ "options" := v ]}; check_mode := false |}.

(** A string where an entry should be, between a named and an unnamed
    entry; and the other way round. *)
Definition string_first : list pyval :=
  [PDict Tasks.by_name; PStr "domain-name"; PDict Tasks.unnamed].

Definition unnamed_first : list pyval :=
  [PDict Tasks.by_name; PDict Tasks.unnamed; PStr "domain-name"].

(** The first example task with a parameter the module does not declare,
    and in check mode. *)
Definition with_options_parameter : dict :=
  <[ "options" := PList [] ]> Tasks.my_string.

Definition in_check_mode (args : dict) (a : Wapi.appliance) : world Wapi.appliance :=
  {| task_args := args; task_check_mode := true; remote := a; ended := Running |}.

End Cases.

(** * Properties *)

(** A closed decidable statement, settled by evaluation. *)
Ltac by_compute := apply (bool_decide_unpack _); vm_compute; exact I.

(** ** Runs *)

Lemma no_return {W} (h : env W) (c : call) (w : W) :
  answer c = Empty_set → (h c w).1 = None.
Proof.
  intros E. destruct (h c w) as [[x|] w']; [|done].
  exfalso. rewrite E in x. destruct x.
Qed.

Lemma exec_halt {W R} (h : env W) (c : call) (k : answer c → prog R) (w : W) :
  answer c = Empty_set → exec h (Do c k) w = ([c], None, (h c w).2).
Proof.
  intros E. cbn [exec]. pose proof (no_return h c w E) as Hn.
  destruct (h c w) as [[x|] w']; [done|done].
Qed.

Lemma exec_bind {W A B} (h : env W) (p : prog A) (f : A → prog B) (w : W) :
  exec h (p ≫= f) w =
    match exec h p w with
    | (t, Some a, w') => let '(t', r, w'') := exec h (f a) w' in ((t ++ t')%list, r, w'')
    | (t, None, w') => (t, None, w')
    end.
Proof.
  revert w. induction p as [a|c k IH]; intros w.
  - cbn. by destruct (exec h (f a) w) as [[t' r] w''].
  - change (Do c k ≫= f) with (Do c (λ x, k x ≫= f)). cbn [exec].
    destruct (h c w) as [[x|] w']; [|done].
    rewrite IH. destruct (exec h (k x) w') as [[t [a|]] w'']; [|done].
    by destruct (exec h (f a) w'') as [[t' r] w3].
Qed.

(** ** [options] *)

Lemma strip_none_lookup (item : dict) (k : string) :
  strip_none item !! k =
    match item !! k with
    | Some PNone => None
    | o => o
    end.
Proof.
  unfold strip_none. rewrite map_lookup_filter.
  destruct (item !! k) as [v|]; [|done]. cbn.
  case_guard as Hv; cbn in Hv; destruct v; done.
Qed.

Lemma strip_none_None (item : dict) (k : string) :
  strip_none item !! k = None ↔ ¬ has_field k item.
Proof.
  rewrite strip_none_lookup. unfold has_field. split.
  - intros H [v [Hv Hn]]. rewrite Hv in H. by destruct v.
  - intros H. destruct (item !! k) as [v|] eqn:E; [|done].
    destruct v; try done; exfalso; apply H; eexists; split; done.
Qed.

Lemma strip_none_Some (item : dict) (k : string) (v : pyval) :
  strip_none item !! k = Some v ↔ item !! k = Some v ∧ v ≠ PNone.
Proof. unfold strip_none. by rewrite map_lookup_filter_Some. Qed.

Lemma options_loop_step_named (item : dict) (rest : list pyval) (acc : list dict) :
  named item →
  options_loop (PDict item :: rest) acc = options_loop rest (acc ++ [strip_none item]).
Proof.
  intros Hn. cbn [options_loop].
  destruct (strip_none item !! "name") eqn:E1; [done|].
  destruct (strip_none item !! "num") eqn:E2; [done|].
  apply strip_none_None in E1, E2. destruct Hn; done.
Qed.

Lemma options_loop_step_unnamed (item : dict) (rest : list pyval) (acc : list dict) :
  ¬ named item →
  options_loop (PDict item :: rest) acc =
    Do (fail_json option_msg) (λ _, options_loop rest (acc ++ [strip_none item])).
Proof.
  intros Hn. cbn [options_loop].
  destruct (strip_none item !! "name") eqn:E1.
  { exfalso. apply Hn. left. apply strip_none_Some in E1. by eexists. }
  destruct (strip_none item !! "num") eqn:E2; [|done].
  exfalso. apply Hn. right. apply strip_none_Some in E2. by eexists.
Qed.

Lemma options_loop_fails {W} (h : env W) (w : W) (items : list dict) (acc : list dict) :
  Exists (λ item, ¬ named item) items →
  exec h (options_loop (PDict <$> items) acc) w =
    ([fail_json option_msg], None, (h (fail_json option_msg) w).2).
Proof.
  intros Hex. revert acc. induction Hex as [item rest Hbad|item rest Hex IH]; intros acc.
  - rewrite fmap_cons, options_loop_step_unnamed by done. by apply exec_halt.
  - rewrite fmap_cons. destruct (decide (named item)) as [Hn|Hn].
    + rewrite options_loop_step_named by done. apply IH.
    + rewrite options_loop_step_unnamed by done. by apply exec_halt.
Qed.

Lemma options_loop_returns {W} (h : env W) (w : W) (items : list dict) (acc : list dict) :
  Forall named items →
  exec h (options_loop (PDict <$> items) acc) w =
    ([], Some (acc ++ (strip_none <$> items))%list, w).
Proof.
  intros Hall. revert acc. induction Hall as [|item rest Hn Hall IH]; intros acc.
  - cbn. by rewrite app_nil_r.
  - rewrite !fmap_cons, options_loop_step_named by done.
    rewrite IH. by rewrite <- app_assoc.
Qed.

Lemma options_of_list (module : AnsibleModule) (items : list pyval) :
  params module !! "options" = Some (PList items) →
  options module = options_loop items [].
Proof. intros H. unfold options. by rewrite H. Qed.

(** C1. Whenever an entry of the options list has neither a [name] nor a
    [num] that is not [None], [options] makes exactly one call,
    [fail_json] with the message on the missing field; it returns nothing
    and the client is never called: the run ends at [fail_json], in the
    world [fail_json] leaves. *)
Theorem options_fails_without_name_or_num {W} (h : env W) (w : W)
    (module : AnsibleModule) (items : list dict) (item : dict) :
  params module !! "options" = Some (PList (PDict <$> items)) →
  item ∈ items →
  ¬ has_field "name" item →
  ¬ has_field "num" item →
  exec h (options module) w =
    ([fail_json option_msg], None, (h (fail_json option_msg) w).2)
  ∧ option_msg !! "msg" = Some (PStr "one of `name` or `num` is required for option value")
  ∧ ∀ wapi ib_obj_type schema,
      WapiModule_run wapi ib_obj_type schema ∉ trace h (options module) w.
Proof.
  intros Hopts Hin Hname Hnum.
  assert (exec h (options module) w =
            ([fail_json option_msg], None, (h (fail_json option_msg) w).2)) as Hrun.
  { rewrite (options_of_list _ _ Hopts). apply options_loop_fails.
    apply Exists_exists. exists item. split; [done|]. intros [?|?]; done. }
  split; [done|]. split; [done|].
  intros wapi t s. unfold trace. rewrite Hrun. cbn.
  intros Hel. apply list_elem_of_singleton in Hel. discriminate.
Qed.

(** C3. When every entry of the options list has a [name] or a [num],
    [options] returns one mapping per entry, in order, and in the mapping
    of an entry every key whose value is [None] is absent, every key with
    another value is present with that value, and no key is new. *)
Theorem options_strips_none {W} (h : env W) (w : W)
    (module : AnsibleModule) (items : list dict) :
  params module !! "options" = Some (PList (PDict <$> items)) →
  Forall named items →
  ∃ out : list dict,
    exec h (options module) w = ([], Some out, w)
    ∧ length out = length items
    ∧ ∀ (i : nat) (item : dict), items !! i = Some item →
        ∃ opt : dict, out !! i = Some opt
          ∧ ∀ (k : string),
              (item !! k = Some PNone → opt !! k = None)
              ∧ (∀ v, item !! k = Some v → v ≠ PNone → opt !! k = Some v)
              ∧ (item !! k = None → opt !! k = None).
Proof.
  intros Hopts Hall. exists (strip_none <$> items). split; [|split].
  - rewrite (options_of_list _ _ Hopts). by rewrite options_loop_returns.
  - by rewrite length_fmap.
  - intros i item Hi. exists (strip_none item). split.
    + by rewrite list_lookup_fmap, Hi.
    + intros k. rewrite strip_none_lookup. repeat split.
      * by intros ->.
      * intros v -> Hv. by destruct v.
      * by intros ->.
Qed.

(** ** [main] *)

Section main_runs.
Context {W : Type} (normalize_ib_spec : schema → schema) (provider_spec : schema).

Local Abbreviation the_spec := (argument_spec normalize_ib_spec provider_spec).
Local Abbreviation the_main := (main normalize_ib_spec provider_spec).

(** Every run of [main], by how far the collaborators let it go. *)
Lemma exec_main (h : env W) (w : W) :
  exec h the_main w =
    let c1 := AnsibleModule_init the_spec true in
    match h c1 w with
    | (None, w1) => ([c1], None, w1)
    | (Some module, w1) =>
        let c2 := WapiModule_init module in
        match h c2 w1 with
        | (None, w2) => ([c1; c2], None, w2)
        | (Some wapi, w2) =>
            let c3 := WapiModule_run wapi "extensibleattributedef" ib_spec in
            match h c3 w2 with
            | (None, w3) => ([c1; c2; c3], None, w3)
            | (Some result, w3) =>
                ([c1; c2; c3; exit_json result], None, (h (exit_json result) w3).2)
            end
        end
    end.
Proof.
  unfold main. cbn.
  destruct (h _ w) as [[module|] w1]; [|done]. cbn.
  destruct (h _ w1) as [[wapi|] w2]; [|done]. cbn.
  destruct (h _ w2) as [[result|] w3]; [|done]. cbn.
  by destruct (h (exit_json result) w3) as [[[]|] w4].
Qed.

Lemma argument_spec_lookup (k : string) :
  the_spec !! k =
    match provider_spec !! k with
    | Some f => Some f
    | None =>
        match normalize_ib_spec ib_spec !! k with
        | Some f => Some f
        | None =>
            ({[ "provider" := {[ "required" := PBool true ]};
                "state" := {[ "default" := PStr "present";
                              "choices" := PList [PStr "present"; PStr "absent"] ]} ]}
               : schema) !! k
        end
    end.
Proof.
  unfold argument_spec, update.
  destruct (provider_spec !! k) as [f|] eqn:E1.
  { by apply lookup_union_Some_l. }
  rewrite lookup_union_r by done.
  destruct (normalize_ib_spec ib_spec !! k) as [f|] eqn:E2.
  { by apply lookup_union_Some_l. }
  by rewrite lookup_union_r.
Qed.

Lemma ib_spec_dom :
  dom ib_spec =
    ({[ "comment"; "default_value"; "list_values"; "max"; "min"; "name"; "type" ]}
       : gset string).
Proof. by_compute. Qed.

(** C2. [main] never reaches the [fail_json] of [options]: the argument
    spec it declares has no [options] field (given that the two helpers of
    the client add none), and in every environment no call that [main]
    makes is a [fail_json], nor does [main] raise. *)
Theorem main_never_calls_options (h : env W) (w : W) :
  keeps_declaration normalize_ib_spec →
  declares_provider_only provider_spec →
  ("options" ∉ dom (the_spec))
  ∧ ("options" ∉ dom ib_spec)
  ∧ ∀ c, c ∈ trace h the_main w →
      (∀ kwargs, c ≠ fail_json kwargs) ∧ (∀ e, c ≠ raise e).
Proof.
  intros [Hdom _] Hprov. split; [|split].
  - apply not_elem_of_dom. rewrite argument_spec_lookup.
    assert (provider_spec !! "options" = None) as ->.
    { apply not_elem_of_dom. intros Hin. apply Hprov in Hin.
      apply elem_of_singleton in Hin. discriminate. }
    assert (normalize_ib_spec ib_spec !! "options" = None) as ->.
    { apply not_elem_of_dom. rewrite Hdom. by_compute. }
    done.
  - by_compute.
  - intros c. unfold trace. rewrite exec_main. cbn zeta.
    destruct (h _ w) as [[module|] w1]; cbn;
      [destruct (h _ w1) as [[wapi|] w2]; cbn;
        [destruct (h _ w2) as [[result|] w3]; cbn|]|];
      intros Hc; repeat (apply elem_of_cons in Hc as [->|Hc]);
      try (by apply elem_of_nil in Hc); by split.
Qed.

(** C4. Whenever the client's [run] returns a result, the next and last
    call of [main] is [exit_json] with that very result as its keyword
    arguments, and the run ends in the world [exit_json] leaves. *)
Theorem main_returns_result_verbatim (h : env W) (w w1 w2 w3 : W)
    (module : AnsibleModule) (wapi : WapiModule) (result : dict) :
  h (AnsibleModule_init the_spec true) w = (Some module, w1) →
  h (WapiModule_init module) w1 = (Some wapi, w2) →
  h (WapiModule_run wapi "extensibleattributedef" ib_spec) w2 = (Some result, w3) →
  exec h the_main w =
    ([AnsibleModule_init the_spec true; WapiModule_init module;
      WapiModule_run wapi "extensibleattributedef" ib_spec; exit_json result],
     None, (h (exit_json result) w3).2).
Proof. intros H1 H2 H3. rewrite exec_main. cbn zeta. by rewrite H1, H2, H3. Qed.

(** C10. In every environment, whatever the parameters, a call of the
    client's [run] that [main] makes has the object type
    ["extensibleattributedef"] and the schema [ib_spec], a constant whose
    keys are exactly comment, default_value, list_values, max, min, name
    and type; and [main] makes that call as soon as the two constructors
    return. *)
Theorem main_runs_fixed_schema (h : env W) (w : W) :
  dom ib_spec =
    ({[ "comment"; "default_value"; "list_values"; "max"; "min"; "name"; "type" ]}
       : gset string)
  ∧ (∀ wapi ib_obj_type schema,
       WapiModule_run wapi ib_obj_type schema ∈ trace h the_main w →
       ib_obj_type = "extensibleattributedef" ∧ schema = ib_spec)
  ∧ (∀ module w1 wapi w2,
       h (AnsibleModule_init the_spec true) w = (Some module, w1) →
       h (WapiModule_init module) w1 = (Some wapi, w2) →
       WapiModule_run wapi "extensibleattributedef" ib_spec ∈ trace h the_main w).
Proof.
  split; [apply ib_spec_dom|]. split.
  - intros wapi t s. unfold trace. rewrite exec_main. cbn zeta.
    destruct (h _ w) as [[module|] w1]; cbn;
      [destruct (h _ w1) as [[wapi'|] w2]; cbn;
        [destruct (h _ w2) as [[result|] w3]; cbn|]|];
      intros Hc; repeat (apply elem_of_cons in Hc as [Hc|Hc]);
      try (by apply elem_of_nil in Hc); try discriminate; by inversion Hc.
  - intros module w1 wapi w2 H1 H2. unfold trace. rewrite exec_main. cbn zeta.
    rewrite H1, H2.
    destruct (h _ w2) as [[result|] w3]; cbn;
      rewrite !elem_of_cons; auto.
Qed.

End main_runs.

(** ** The framework's validation *)

Section validation_facts.
Variable check_type : option pyval → option pyval → pyval → option pyval.

Local Abbreviation validate := (Ansible.validate check_type).
Local Abbreviation convert := (Ansible.convert check_type).

Lemma validate_Some (spec : schema) (args p : dict) :
  validate spec args = Some p →
  let p1 := Ansible.set_defaults_pre spec args in
  let p2 := Ansible.convert_all check_type spec p1 in
  dom args ⊆ dom spec
  ∧ map_Forall (λ k f, truthy (Ansible.get f "required") → is_Some (p1 !! k)) spec
  ∧ map_Forall (λ k v, is_Some (Ansible.convert_param check_type spec k v)) p1
  ∧ map_Forall (λ k f, Ansible.value_ok f (p2 !! k)) spec
  ∧ p = Ansible.set_defaults spec p2.
Proof.
  unfold Ansible.validate, Ansible.spec_ok, Ansible.supported, Ansible.required_ok,
    Ansible.types_ok, Ansible.values_ok.
  repeat case_bool_decide; cbn; try discriminate.
  intros [= <-]. done.
Qed.

(** An argument spec with a field that is required and has a default is
    refused, whatever the task gives. *)
Lemma validate_refuses_spec (spec : schema) (args : dict) (k : string) (f : dict) :
  spec !! k = Some f →
  truthy (Ansible.get f "required") →
  is_none (Ansible.get f "default") = false →
  validate spec args = None.
Proof.
  intros Hf Hreq Hdef. unfold Ansible.validate, Ansible.spec_ok.
  case_bool_decide as Hok; [|done].
  specialize (Hok k f Hf Hreq). rewrite Hdef in Hok. done.
Qed.


Lemma pre_lookup_omitted (spec : schema) (args : dict) (k : string) :
  args !! k = None →
  Ansible.set_defaults_pre spec args !! k = spec !! k ≫= Ansible.declared_default.
Proof.
  intros H. unfold Ansible.set_defaults_pre.
  rewrite lookup_union_r by done. apply lookup_omap.
Qed.




(** A required parameter without a default that is omitted has the
    parameters refused. *)
Lemma validate_refuses_missing (spec : schema) (args : dict) (k : string) (f : dict) :
  spec !! k = Some f →
  truthy (Ansible.get f "required") →
  f !! "default" = None →
  args !! k = None →
  validate spec args = None.
Proof.
  intros Hf Hreq Hdef Hk. destruct (validate spec args) as [p|] eqn:Hv; [|done].
  apply validate_Some in Hv as (_ & Hr & _). cbn in Hr.
  destruct (Hr k f Hf Hreq) as [v Hv].
  rewrite pre_lookup_omitted, Hf in Hv by done. cbn in Hv.
  unfold Ansible.declared_default, Ansible.get in Hv. rewrite Hdef in Hv.
  discriminate.
Qed.


End validation_facts.

(** ** Runs of the module under the framework *)

Section module_runs.
Context {A : Type}.
Variable check_type : option pyval → option pyval → pyval → option pyval.
Variable client : WapiModule → string → schema → A → option dict * A.
Variable normalize_ib_spec : schema → schema.
Variable provider_spec : schema.

Local Abbreviation the_spec := (argument_spec normalize_ib_spec provider_spec).
Local Abbreviation the_main := (main normalize_ib_spec provider_spec).
Local Abbreviation the_env := (framework check_type client).
Local Abbreviation validate := (Ansible.validate check_type).
Local Abbreviation convert := (Ansible.convert check_type).

Lemma run_refused (w : world A) :
  validate (the_spec) (task_args w) = None →
  exec the_env the_main w = ([AnsibleModule_init (the_spec) true], None, stop Invalid w).
Proof. intros Hv. rewrite exec_main. cbn. by rewrite Hv. Qed.

Lemma run_accepted (w : world A) (p : dict) :
  validate (the_spec) (task_args w) = Some p →
  exec the_env the_main w =
    let module := {| params := p; check_mode := task_check_mode w |} in
    let wapi := {| wapi_module := module |} in
    let calls := [AnsibleModule_init (the_spec) true; WapiModule_init module;
                  WapiModule_run wapi "extensibleattributedef" ib_spec] in
    match client wapi "extensibleattributedef" ib_spec (remote w) with
    | (Some result, a) =>
        ((calls ++ [exit_json result])%list, None, stop (Exited result) (with_remote a w))
    | (None, a) => (calls, None, stop (Failed ∅) (with_remote a w))
    end.
Proof.
  intros Hv. rewrite exec_main. cbn. rewrite Hv, andb_false_r. cbn.
  by destruct (client _ _ _ _) as [[result|] a].
Qed.

Section declaration.
Hypothesis Hkeep : keeps_declaration normalize_ib_spec.
Hypothesis Hprov : declares_provider_only provider_spec.

Lemma provider_spec_other (k : string) : k ≠ "provider" → provider_spec !! k = None.
Proof.
  intros Hk. apply not_elem_of_dom. intros Hin. apply Hprov in Hin.
  by apply elem_of_singleton in Hin.
Qed.


Lemma the_spec_field (k : string) :
  k ∈ dom ib_spec →
  ∃ f', the_spec !! k = Some f'
        ∧ ∀ a, a ∈ framework_attrs → f' !! a = declared ib_spec k !! a.
Proof.
  intros Hk. destruct Hkeep as [Hdom Hattr].
  assert (k ≠ "provider") as Hne.
  { intros ->. revert Hk. apply (bool_decide_unpack _). by vm_compute. }
  pose proof Hk as Hk'. rewrite <- Hdom in Hk'.
  apply elem_of_dom in Hk as [f Hf]. apply elem_of_dom in Hk' as [f' Hf'].
  exists f'. split.
  - by rewrite argument_spec_lookup, provider_spec_other, Hf'.
  - intros a Ha. unfold declared. rewrite Hf. cbn. by apply (Hattr k).
Qed.




Lemma framework_attr (a : string) :
  bool_decide (a ∈ framework_attrs) → a ∈ framework_attrs.
Proof. apply bool_decide_unpack. Qed.


(** The field [name] as the framework sees it. *)
Lemma the_spec_name :
  ∃ f, the_spec !! "name" = Some f
       ∧ f !! "required" = Some (PBool true)
       ∧ f !! "default" = None.
Proof.
  destruct (the_spec_field "name") as (f & Hf & Hattr); [by_compute|].
  exists f. split; [done|].
  repeat split; (rewrite Hattr by (by apply framework_attr)); by_compute.
Qed.


(** The argument spec of [main] as the framework sees it has [type]
    required and with the default STRING: the framework refuses it for
    every task. *)
Lemma the_spec_type_required :
  ∃ f, the_spec !! "type" = Some f
       ∧ f !! "required" = Some (PBool true)
       ∧ f !! "default" = Some (PStr "STRING").
Proof.
  destruct (the_spec_field "type") as (f & Hf & Hattr); [by_compute|].
  exists f. split; [done|].
  repeat split; (rewrite Hattr by (by apply framework_attr)); by_compute.
Qed.

Lemma the_spec_refused (args : dict) : validate (the_spec) args = None.
Proof.
  destruct the_spec_type_required as (f & Hf & Hreq & Hdef).
  apply (validate_refuses_spec _ _ _ "type" f Hf);
    unfold Ansible.get; by rewrite ?Hreq, ?Hdef.
Qed.


(** C6. [name] and [type] are required: the argument spec that reaches
    the framework marks both as required, [name] without a default; a
    task that omits [name] is refused by the framework in the one call
    [main] has made by then, and so is a task that omits [type]: neither
    the client's constructor nor its [run] is called and the remote system
    is as it was. *)
Theorem name_and_type_required (w : world A) :
  (truthy (Ansible.get (declared (the_spec) "name") "required")
   ∧ declared (the_spec) "name" !! "default" = None)
  ∧ truthy (Ansible.get (declared (the_spec) "type") "required")
  ∧ (task_args w !! "name" = None →
       exec the_env the_main w
       = ([AnsibleModule_init (the_spec) true], None, stop Invalid w))
  ∧ (task_args w !! "type" = None →
       exec the_env the_main w
       = ([AnsibleModule_init (the_spec) true], None, stop Invalid w)).
Proof.
  destruct the_spec_name as (f & Hf & Hreq & Hdef).
  destruct the_spec_type_required as (g & Hg & Hgreq & _).
  assert (declared (the_spec) "name" = f) as -> by (unfold declared; by rewrite Hf).
  assert (declared (the_spec) "type" = g) as -> by (unfold declared; by rewrite Hg).
  unfold Ansible.get. rewrite Hreq, Hgreq. repeat split; try done.
  - intros Hn. apply run_refused.
    apply (validate_refuses_missing _ _ _ "name" f); try done.
    unfold Ansible.get. by rewrite Hreq.
  - intros Ht. apply run_refused, the_spec_refused.
Qed.


(** C7, on the code. A task with [type] ENUM and a non-empty
    [list_values] does not get its list to the client: the framework
    refuses the argument spec of [main], in which [type] is required and
    has a default, so the run ends in the framework's constructor call,
    neither the client's constructor nor its [run] is called, and the
    remote system is as it was. *)
Theorem list_values_never_reach_client (w : world A) (l : list pyval) :
  task_args w !! "type" = Some (PStr "ENUM") →
  task_args w !! "list_values" = Some (PList l) →
  l ≠ [] →
  exec the_env the_main w
  = ([AnsibleModule_init (the_spec) true], None, stop Invalid w)
  ∧ ∀ c, c ∈ trace the_env the_main w →
         (∀ module, c ≠ WapiModule_init module)
         ∧ (∀ wapi ib_obj_type schema, c ≠ WapiModule_run wapi ib_obj_type schema).
Proof.
  intros _ _ _.
  assert (exec the_env the_main w
          = ([AnsibleModule_init (the_spec) true], None, stop Invalid w)) as Hrun
    by apply run_refused, the_spec_refused.
  split; [done|]. intros c. unfold trace. rewrite Hrun. cbn.
  intros Hc. apply list_elem_of_singleton in Hc as ->. by split.
Qed.

(** C9, on the code. A task with [state] present run twice: the
    framework refuses the argument spec of [main] both times, so the second
    run, like the first, ends in the framework's constructor call without a
    result, and no [changed] is reported; the remote system is as it was
    before the first run. *)
Theorem second_run_is_refused (w : world A) :
  task_args w !! "state" = Some (PStr "present") →
  ended (final the_env the_main w) = Invalid
  ∧ trace the_env the_main (restart (final the_env the_main w))
    = [AnsibleModule_init (the_spec) true]
  ∧ ended (final the_env the_main (restart (final the_env the_main w))) = Invalid
  ∧ (∀ result,
       ended (final the_env the_main (restart (final the_env the_main w)))
       ≠ Exited result)
  ∧ remote (final the_env the_main (restart (final the_env the_main w))) = remote w.
Proof.
  intros _. unfold final, trace.
  rewrite (run_refused w (the_spec_refused _)). cbn [snd].
  rewrite (run_refused (restart (stop Invalid w)) (the_spec_refused _)). done.
Qed.

End declaration.

End module_runs.

(** ** The example collaborators meet what the properties ask *)

Lemma example_keeps_declaration : keeps_declaration Example.normalize_ib_spec.
Proof.
  split.
  - unfold Example.normalize_ib_spec. apply dom_fmap_L.
  - intros k f f' Hf Hf' a Ha. unfold Example.normalize_ib_spec in Hf'.
    rewrite lookup_fmap, Hf in Hf'. injection Hf' as <-.
    rewrite map_lookup_filter. destruct (f !! a) as [v|]; [|done]. cbn.
    case_guard as Hg; [done|]. exfalso. cbn in Hg. revert Hg.
    change (a ∉ ["ib_req"; "transform"; "update"]).
    unfold framework_attrs in Ha. rewrite !elem_of_cons in Ha.
    destruct Ha as [->|[->|[->|[->|[->|Ha]]]]]; try by_compute.
    by apply elem_of_nil in Ha.
Qed.

Lemma example_provider_only : declares_provider_only Example.provider_spec.
Proof. unfold declares_provider_only. by_compute. Qed.


(** ** The properties on example tasks *)

Section examples.
Import Example.

Local Abbreviation the_env := (framework check_type Wapi.run).
Local Abbreviation the_main := (main normalize_ib_spec provider_spec).
Local Abbreviation the_spec := (argument_spec normalize_ib_spec provider_spec).

(** An options list with a named entry first and an unnamed one after it:
    [options] fails at the second. *)
Lemma options_fails_example :
  exec the_env (options (Tasks.with_options [Tasks.by_name; Tasks.unnamed; Tasks.by_num]))
    (task ∅ ∅)
  = ([fail_json option_msg], None, stop (Failed option_msg) (task ∅ ∅)).
Proof.
  apply (options_fails_without_name_or_num the_env (task ∅ ∅)
           (Tasks.with_options [Tasks.by_name; Tasks.unnamed; Tasks.by_num])
           [Tasks.by_name; Tasks.unnamed; Tasks.by_num] Tasks.unnamed).
  - reflexivity.
  - by_compute.
  - by_compute.
  - by_compute.
Defined.

(** An options list of named entries: the [name] that is [None] is gone
    from the second mapping and its [num] is kept. *)
Lemma options_strips_example :
  ∃ out : list dict,
    exec the_env (options (Tasks.with_options [Tasks.by_name; Tasks.by_num])) (task ∅ ∅)
    = ([], Some out, task ∅ ∅)
    ∧ (∃ opt, out !! 1%nat = Some opt
              ∧ opt !! "name" = None ∧ opt !! "num" = Some (PInt 15)).
Proof.
  destruct (options_strips_none the_env (task ∅ ∅)
              (Tasks.with_options [Tasks.by_name; Tasks.by_num])
              [Tasks.by_name; Tasks.by_num])
    as (out & Hrun & _ & Hout).
  - reflexivity.
  - by_compute.
  - exists out. split; [exact Hrun|].
    destruct (Hout 1%nat Tasks.by_num eq_refl) as (opt & Hopt & Hk).
    exists opt. split; [exact Hopt|]. split.
    + apply (proj1 (Hk "name")). reflexivity.
    + apply (proj1 (proj2 (Hk "num")) (PInt 15)); [reflexivity|discriminate].
Defined.

(** With the example collaborators the argument spec has no [options]
    field, and the run of the first example task makes no [fail_json]. *)
Lemma main_never_calls_options_example :
  ("options" ∉ dom (the_spec))
  ∧ ∀ c, c ∈ trace the_env the_main (task Tasks.my_string ∅) →
         ∀ kwargs, c ≠ fail_json kwargs.
Proof.
  destruct (main_never_calls_options normalize_ib_spec provider_spec
              the_env (task Tasks.my_string ∅)
              example_keeps_declaration example_provider_only)
    as (Hspec & _ & Hcalls).
  split; [exact Hspec|]. intros c Hc. exact (proj1 (Hcalls c Hc)).
Defined.

(** The first example task on an empty remote system, with the stand-in
    for the framework that hands the parameters over: the client reports a
    change and [main] exits with that report. *)
Lemma main_returns_result_example :
  last (trace mock the_main (task Tasks.my_string ∅))
  = Some (exit_json (Wapi.changed true)).
Proof.
  unfold trace.
  rewrite (main_returns_result_verbatim normalize_ib_spec provider_spec mock
             (task Tasks.my_string ∅) (task Tasks.my_string ∅) (task Tasks.my_string ∅)
             (with_remote (snd (Wapi.run
                {| wapi_module := {| params := Tasks.my_string; check_mode := false |} |}
                "extensibleattributedef" ib_spec ∅)) (task Tasks.my_string ∅))
             {| params := Tasks.my_string; check_mode := false |}
             {| wapi_module := {| params := Tasks.my_string; check_mode := false |} |}
             (Wapi.changed true)).
  - reflexivity.
  - reflexivity.
  - reflexivity.
  - by_compute.
Defined.


(** A task without [name] is refused, and so is a task without [type]. *)
Lemma name_and_type_required_example :
  exec the_env the_main (task Tasks.without_name ∅)
  = ([AnsibleModule_init (the_spec) true], None, stop Invalid (task Tasks.without_name ∅))
  ∧ exec the_env the_main (task Tasks.without_type ∅)
    = ([AnsibleModule_init (the_spec) true], None, stop Invalid (task Tasks.without_type ∅)).
Proof.
  split.
  - destruct (name_and_type_required check_type Wapi.run normalize_ib_spec provider_spec
                example_keeps_declaration example_provider_only (task Tasks.without_name ∅))
      as (_ & _ & Hname & _).
    apply Hname. reflexivity.
  - destruct (name_and_type_required check_type Wapi.run normalize_ib_spec provider_spec
                example_keeps_declaration example_provider_only (task Tasks.without_type ∅))
      as (_ & _ & _ & Htype).
    apply Htype. reflexivity.
Defined.

(** The list example of the module: the run ends in the framework's
    constructor call and the three values do not reach the client. *)
Lemma list_values_refused_example :
  exec the_env the_main (task Tasks.my_list ∅)
  = ([AnsibleModule_init (the_spec) true], None, stop Invalid (task Tasks.my_list ∅)).
Proof.
  destruct (list_values_never_reach_client check_type Wapi.run normalize_ib_spec
              provider_spec example_keeps_declaration example_provider_only
              (task Tasks.my_list ∅) Tasks.my_list_values)
    as [Hrun _].
  - reflexivity.
  - reflexivity.
  - discriminate.
  - exact Hrun.
Defined.


(** The first example task run twice from an empty remote system: the
    second run is refused like the first and reports nothing. *)
Lemma second_run_refused_example :
  ended (final the_env the_main
           (restart (final the_env the_main (task Tasks.my_string ∅))))
  = Invalid
  ∧ remote (final the_env the_main
              (restart (final the_env the_main (task Tasks.my_string ∅))))
    = ∅.
Proof.
  destruct (second_run_is_refused check_type Wapi.run normalize_ib_spec provider_spec
              example_keeps_declaration example_provider_only (task Tasks.my_string ∅))
    as (_ & _ & Hend & _ & Hremote).
  - reflexivity.
  - split; [exact Hend|exact Hremote].
Defined.

End examples.

(** * Further properties of [options] *)

Section options_further.
Context {W : Type} (h : env W).

(** The list built so far only prefixes what the loop returns. *)
Lemma options_loop_acc (items : list pyval) (acc : list dict) (w : W) :
  exec h (options_loop items acc) w =
    match exec h (options_loop items []) w with
    | (t, Some out, w') => (t, Some (acc ++ out)%list, w')
    | (t, None, w') => (t, None, w')
    end.
Proof.
  revert acc. induction items as [|x rest IH]; intros acc.
  - cbn. by rewrite app_nil_r.
  - destruct x as [| | | | |item]; try (cbn [options_loop app]; by rewrite !exec_halt).
    cbn [options_loop].
    destruct (strip_none item !! "name") as [?|], (strip_none item !! "num") as [?|];
      try (by rewrite !exec_halt);
      rewrite (IH (acc ++ [strip_none item])%list), (IH ([] ++ [strip_none item])%list);
      destruct (exec h (options_loop rest []) w) as [[t [out|]] w']; try done;
      by rewrite <- app_assoc.
Qed.

(** What a returning loop has seen: named dictionaries only, and it
    returns their stripped forms without a call. *)
Lemma options_loop_returns_inv (items : list pyval) (acc out : list dict)
    (t : list call) (w w' : W) :
  exec h (options_loop items acc) w = (t, Some out, w') →
  ∃ ds : list dict,
    items = PDict <$> ds ∧ Forall named ds
    ∧ out = (acc ++ (strip_none <$> ds))%list ∧ t = [] ∧ w' = w.
Proof.
  revert acc. induction items as [|x rest IH]; intros acc Hrun.
  - cbn in Hrun. injection Hrun as <- <- <-. exists []. by rewrite app_nil_r.
  - destruct x as [| | | | |item];
      try (cbn [options_loop] in Hrun; by rewrite exec_halt in Hrun).
    destruct (decide (named item)) as [Hn|Hn].
    + rewrite options_loop_step_named in Hrun by done.
      destruct (IH _ Hrun) as (ds & -> & Hall & -> & -> & ->).
      exists (item :: ds). repeat split; try done.
      * by constructor.
      * by rewrite <- app_assoc.
    + rewrite options_loop_step_unnamed, exec_halt in Hrun by done. discriminate.
Qed.

Lemma options_returns_inv (module : AnsibleModule) (out : list dict)
    (t : list call) (w w' : W) :
  exec h (options module) w = (t, Some out, w') →
  ∃ (v : pyval) (ds : list dict),
    params module !! "options" = Some v ∧ iterate v = Some (PDict <$> ds)
    ∧ Forall named ds ∧ out = strip_none <$> ds ∧ t = [] ∧ w' = w.
Proof.
  unfold options. destruct (params module !! "options") as [v|];
    [|by rewrite exec_halt].
  destruct (iterate v) as [items|] eqn:Hit; [|by rewrite exec_halt].
  intros Hrun. destruct (options_loop_returns_inv _ _ _ _ _ _ Hrun)
    as (ds & -> & Hall & -> & -> & ->).
  by exists v, ds.
Qed.

Lemma strip_none_idemp (item : dict) : strip_none (strip_none item) = strip_none item.
Proof.
  apply map_eq. intros k. rewrite !strip_none_lookup.
  destruct (item !! k) as [[| | | | |]|]; done.
Qed.

Lemma named_strip_none (item : dict) : named item → named (strip_none item).
Proof.
  assert (∀ k, has_field k item → has_field k (strip_none item)) as Hk.
  { intros k (v & Hv & Hn). exists v. split; [|done]. by apply strip_none_Some. }
  intros [H|H]; [left|right]; by apply Hk.
Qed.

(** X1. Whatever the module holds, [options] makes at most one call
    outside itself: it returns a list without any call and leaves the
    world as it was, or it makes exactly one call that does not return,
    [fail_json] with the message on the missing field or one of the
    exceptions KeyError, TypeError, AttributeError.  It never calls the
    framework's constructor, the client or [exit_json]. *)
Theorem options_one_call_at_most (module : AnsibleModule) (w : W) :
  (∃ out, exec h (options module) w = ([], Some out, w))
  ∨ (∃ c, exec h (options module) w = ([c], None, (h c w).2)
          ∧ (c = fail_json option_msg ∨ c = raise "KeyError"
             ∨ c = raise "TypeError" ∨ c = raise "AttributeError")).
Proof.
  assert (∀ items acc,
            (∃ out, exec h (options_loop items acc) w = ([], Some out, w))
            ∨ (∃ c, exec h (options_loop items acc) w = ([c], None, (h c w).2)
                    ∧ (c = fail_json option_msg ∨ c = raise "KeyError"
                       ∨ c = raise "TypeError" ∨ c = raise "AttributeError")))
    as Hloop.
  { induction items as [|x rest IH]; intros acc.
    - left. by exists acc.
    - destruct x as [| | | | |item];
        try (right; eexists; split; [by apply exec_halt|]; by auto).
      destruct (decide (named item)) as [Hn|Hn].
      + rewrite options_loop_step_named by done. apply IH.
      + rewrite options_loop_step_unnamed by done.
        right. eexists. split; [by apply exec_halt|]. by auto. }
  unfold options. destruct (params module !! "options") as [v|].
  - destruct (iterate v) as [items|]; [apply Hloop|].
    right. eexists. split; [by apply exec_halt|]. by auto.
  - right. eexists. split; [by apply exec_halt|]. by auto.
Qed.

(** X2. The first entry that is not a named dictionary decides how
    [options] fails, whatever comes after it: an entry that is not a
    dictionary raises AttributeError, also when unnamed dictionaries
    follow; a dictionary without [name] and [num] ends in [fail_json],
    also when entries that are no dictionaries follow. *)
Theorem options_first_offender (module : AnsibleModule) (w : W)
    (before : list dict) (x : pyval) (after : list pyval) :
  params module !! "options" = Some (PList ((PDict <$> before) ++ x :: after)) →
  Forall named before →
  ((∀ item, x ≠ PDict item) →
     exec h (options module) w
     = ([raise "AttributeError"], None, (h (raise "AttributeError") w).2))
  ∧ (∀ item, x = PDict item → ¬ named item →
       exec h (options module) w
       = ([fail_json option_msg], None, (h (fail_json option_msg) w).2)).
Proof.
  intros Hopts Hall. rewrite (options_of_list _ _ Hopts). clear Hopts.
  assert (∀ acc, options_loop ((PDict <$> before) ++ x :: after) acc
                 = options_loop (x :: after) (acc ++ (strip_none <$> before))%list) as ->.
  { induction Hall as [|d ds Hd Hds IH]; intros acc.
    - cbn. by rewrite app_nil_r.
    - rewrite fmap_cons. cbn [app].
      rewrite options_loop_step_named, IH by done.
      by rewrite fmap_cons, <- app_assoc. }
  split.
  - intros Hx. destruct x as [| | | | |item]; try (by apply exec_halt).
    by destruct (Hx item).
  - intros item -> Hn. rewrite options_loop_step_unnamed by done. by apply exec_halt.
Qed.

(** X3. [options] is idempotent: run on the list it returned, it returns
    that list again. *)
Theorem options_idempotent (module again : AnsibleModule) (out : list dict)
    (t : list call) (w w' : W) :
  exec h (options module) w = (t, Some out, w') →
  params again !! "options" = Some (PList (PDict <$> out)) →
  exec h (options again) w = ([], Some out, w).
Proof.
  intros Hrun Hagain.
  destruct (options_returns_inv _ _ _ _ _ Hrun) as (v & ds & _ & _ & Hall & -> & _ & _).
  rewrite (options_of_list _ _ Hagain), options_loop_returns.
  - cbn [app]. rewrite <- list_fmap_compose.
    do 2 f_equal. f_equal. apply list_fmap_ext. intros ? d _. apply strip_none_idemp.
  - apply Forall_fmap. eapply Forall_impl; [exact Hall|]. apply named_strip_none.
Qed.

(** X4. Every mapping that [options] returns holds a [name] or a [num],
    holds no [None], and is a part of the entry it comes from: the list
    returned has one mapping per element of the parameter, in order. *)
Theorem options_result_invariant (module : AnsibleModule) (out : list dict)
    (t : list call) (w w' : W) :
  exec h (options module) w = (t, Some out, w') →
  Forall (λ opt : dict,
            (is_Some (opt !! "name") ∨ is_Some (opt !! "num"))
            ∧ map_Forall (λ _ v, v ≠ PNone) opt) out
  ∧ ∃ items : list dict,
      (params module !! "options" ≫= iterate) = Some (PDict <$> items)
      ∧ Forall2 (λ opt item : dict, opt ⊆ item) out items.
Proof.
  intros Hrun.
  destruct (options_returns_inv _ _ _ _ _ Hrun) as (v & ds & Hv & Hit & Hall & -> & _ & _).
  split.
  - apply Forall_fmap. eapply Forall_impl; [exact Hall|]. intros d Hd. cbn. split.
    + destruct (named_strip_none d Hd) as [(x & Hx & _)|(x & Hx & _)]; eauto.
    + intros k x Hx. by apply strip_none_Some in Hx as [_ Hx].
  - exists ds. split; [by rewrite Hv|].
    apply Forall2_fmap_l, Forall_Forall2_diag, Forall_forall.
    intros d _. apply map_filter_subseteq.
Qed.

(** X5. [options] works entry by entry: on two lists one after the
    other it returns the two results one after the other when it returns
    on both, and it fails as on the first list when it fails there. *)
Theorem options_app (first second both : AnsibleModule) (l1 l2 : list pyval) (w : W) :
  params first !! "options" = Some (PList l1) →
  params second !! "options" = Some (PList l2) →
  params both !! "options" = Some (PList (l1 ++ l2)) →
  (∀ out1 out2,
      exec h (options first) w = ([], Some out1, w) →
      exec h (options second) w = ([], Some out2, w) →
      exec h (options both) w = ([], Some (out1 ++ out2)%list, w))
  ∧ (∀ t w', exec h (options first) w = (t, None, w') →
             exec h (options both) w = (t, None, w')).
Proof.
  intros H1 H2 H12.
  rewrite (options_of_list _ _ H1), (options_of_list _ _ H2), (options_of_list _ _ H12).
  clear H1 H2 H12.
  assert (∀ acc, exec h (options_loop (l1 ++ l2) acc) w
                 = match exec h (options_loop l1 acc) w with
                   | (t, Some out, w') => exec h (options_loop l2 out) w
                   | (t, None, w') => (t, None, w')
                   end) as Happ.
  { induction l1 as [|x rest IH]; intros acc; [done|].
    destruct x as [| | | | |item]; try (cbn [options_loop app]; by rewrite !exec_halt).
    cbn [app]. destruct (decide (named item)) as [Hn|Hn].
    - rewrite !options_loop_step_named by done. apply IH.
    - rewrite !options_loop_step_unnamed, !exec_halt by done. done. }
  rewrite Happ. split.
  - intros out1 out2 -> Hr2. rewrite options_loop_acc, Hr2. done.
  - by intros t w' ->.
Qed.

(** X6. What [options] does with a parameter that is no list of
    dictionaries: without an [options] parameter it raises KeyError; on
    [None], a boolean or an integer it raises TypeError; on a string it
    raises AttributeError at the first character, and on the empty string,
    as on the empty list, it returns the empty list. *)
Theorem options_without_entries (module : AnsibleModule) (w : W) :
  (params module !! "options" = None →
     exec h (options module) w = ([raise "KeyError"], None, (h (raise "KeyError") w).2))
  ∧ (∀ v, params module !! "options" = Some v →
          v = PNone ∨ (∃ b, v = PBool b) ∨ (∃ n, v = PInt n) →
          exec h (options module) w
          = ([raise "TypeError"], None, (h (raise "TypeError") w).2))
  ∧ (∀ s, params module !! "options" = Some (PStr s) →
          exec h (options module) w
          = if decide (s = "") then ([], Some [], w)
            else ([raise "AttributeError"], None, (h (raise "AttributeError") w).2))
  ∧ (params module !! "options" = Some (PList []) →
       exec h (options module) w = ([], Some [], w)).
Proof.
  unfold options. repeat split.
  - intros ->. by apply exec_halt.
  - intros v -> [->|[[b ->]|[n ->]]]; by apply exec_halt.
  - intros s ->. destruct s as [|c s]; [done|]. cbn.
    by destruct (h (raise "AttributeError") w) as [[[]|] w'].
  - by intros ->.
Qed.

End options_further.

(** * Further properties of [main] *)

Section validation_further.
Variable check_type : option pyval → option pyval → pyval → option pyval.

Local Abbreviation validate := (Ansible.validate check_type).

Lemma validate_unsupported (spec : schema) (args : dict) (k : string) :
  k ∈ dom args → k ∉ dom spec → validate spec args = None.
Proof.
  intros Hin Hout. destruct (validate spec args) as [p|] eqn:Hv; [|done].
  apply validate_Some in Hv as (Hsup & _). by destruct (Hout (Hsup k Hin)).
Qed.

End validation_further.

Section main_further.
Context {W : Type} (normalize_ib_spec : schema → schema) (provider_spec : schema).

Local Abbreviation the_spec := (argument_spec normalize_ib_spec provider_spec).
Local Abbreviation the_main := (main normalize_ib_spec provider_spec).

(** X7. In every environment [main] makes its calls in one order, each at
    most once: the framework's constructor, then the client's constructor,
    then [run], then [exit_json]; it stops at the first call that does not
    return, makes at least the first one, and never returns to its
    caller. *)
Theorem main_call_order (h : env W) (w : W) :
  (exec h the_main w).1.2 = None
  ∧ ∃ module wapi result (n : nat),
      (1 ≤ n ≤ 4)%nat
      ∧ trace h the_main w
        = take n (full_run normalize_ib_spec provider_spec module wapi result).
Proof.
  unfold trace. rewrite exec_main. cbn zeta.
  destruct (h _ w) as [[module|] w1]; cbn.
  - destruct (h _ w1) as [[wapi|] w2]; cbn.
    + destruct (h _ w2) as [[result|] w3]; cbn.
      * split; [done|]. exists module, wapi, result, 4%nat. split; [lia|done].
      * split; [done|]. exists module, wapi, ∅, 3%nat. split; [lia|done].
    + split; [done|].
      exists module, {| wapi_module := module |}, ∅, 2%nat. split; [lia|done].
  - split; [done|].
    exists {| params := ∅; check_mode := false |},
      {| wapi_module := {| params := ∅; check_mode := false |} |}, ∅, 1%nat.
    split; [lia|done].
Qed.

(** X8. When [provider_spec] declares [provider], the declaration of
    [provider] that [main] writes itself, with [required] set, has no
    effect: the argument spec is the one built without it. *)
Theorem provider_declaration_overridden (pf : dict) :
  provider_spec !! "provider" = Some pf →
  the_spec
  = update (update ({[ "state" := {[ "default" := PStr "present";
                                     "choices" := PList [PStr "present"; PStr "absent"] ]} ]}
                      : schema)
              (normalize_ib_spec ib_spec))
      provider_spec
  ∧ the_spec !! "provider" = Some pf.
Proof.
  intros Hp. split.
  - apply map_eq. intros k. rewrite argument_spec_lookup. unfold update.
    destruct (provider_spec !! k) as [f|] eqn:Ek.
    { symmetry. by apply lookup_union_Some_l. }
    rewrite lookup_union_r by done.
    destruct (normalize_ib_spec ib_spec !! k) as [f|] eqn:En.
    { symmetry. by apply lookup_union_Some_l. }
    rewrite lookup_union_r by done.
    assert (k ≠ "provider") as Hk by (intros ->; congruence).
    by rewrite lookup_insert_ne.
  - rewrite argument_spec_lookup. by rewrite Hp.
Qed.

Lemma the_spec_dom :
  keeps_declaration normalize_ib_spec →
  declares_provider_only provider_spec →
  dom (the_spec) = accepted_parameters.
Proof.
  intros [Hdom _] Hprov. unfold argument_spec, update.
  rewrite !dom_union_L, Hdom.
  assert (dom ib_spec
          ∪ dom ({[ "provider" := {[ "required" := PBool true ]};
                    "state" := {[ "default" := PStr "present";
                                  "choices" := PList [PStr "present"; PStr "absent"] ]} ]}
                   : schema)
          = accepted_parameters) as -> by by_compute.
  apply subseteq_union_1_L. etrans; [exact Hprov|]. by_compute.
Qed.

End main_further.

Section module_further.
Context {A : Type}.
Variable check_type : option pyval → option pyval → pyval → option pyval.
Variable client : WapiModule → string → schema → A → option dict * A.
Variable normalize_ib_spec : schema → schema.
Variable provider_spec : schema.

Local Abbreviation the_spec := (argument_spec normalize_ib_spec provider_spec).
Local Abbreviation the_main := (main normalize_ib_spec provider_spec).
Local Abbreviation the_env := (framework check_type client).
Local Abbreviation validate := (Ansible.validate check_type).

(** X11. [main] asks for check mode to be supported: no run ends as
    skipped, in check mode or not, and the module handed to the client's
    constructor carries the task's check-mode flag. *)
Theorem check_mode_passed_on (w : world A) :
  ended (final the_env the_main w) ≠ Skipped
  ∧ ∀ p, validate (the_spec) (task_args w) = Some p →
         WapiModule_init {| params := p; check_mode := task_check_mode w |}
         ∈ trace the_env the_main w.
Proof.
  unfold final, trace. split.
  - destruct (validate (the_spec) (task_args w)) as [p|] eqn:Hv.
    + rewrite (run_accepted _ _ _ _ w p Hv). cbn zeta.
      by destruct (client _ _ _ _) as [[result|] a].
    + by rewrite (run_refused _ _ _ _ w Hv).
  - intros p Hv. rewrite (run_accepted _ _ _ _ w p Hv). cbn zeta.
    destruct (client _ _ _ _) as [[result|] a]; cbn; rewrite !elem_of_cons; auto.
Qed.

Section declaration_further.
Hypothesis Hkeep : keeps_declaration normalize_ib_spec.
Hypothesis Hprov : declares_provider_only provider_spec.

(** X9. The framework is given exactly nine parameters to accept, the
    seven fields of the schema with [state] and [provider]; a task that
    gives any other parameter, [options] for one, is refused by the
    framework in the one call [main] has made by then, and the remote
    system is as it was. *)
Theorem undeclared_parameter_refused (w : world A) (k : string) :
  k ∈ dom (task_args w) →
  k ∉ accepted_parameters →
  dom (the_spec) = accepted_parameters
  ∧ exec the_env the_main w
    = ([AnsibleModule_init (the_spec) true], None, stop Invalid w).
Proof.
  intros Hin Hout. pose proof (the_spec_dom _ _ Hkeep Hprov) as Hdom.
  split; [done|]. apply run_refused.
  apply (validate_unsupported _ _ _ k Hin). by rewrite Hdom.
Qed.

(** X14. The argument spec of [main] marks [type] as required and gives
    it the default STRING, which the framework refuses: every run of
    [main], whatever the task gives, ends in the framework's constructor
    call with the parameters refused; the client's constructor, its [run]
    and [exit_json] are never called and the remote system is as it was. *)
Theorem every_task_is_refused (w : world A) :
  exec the_env the_main w
  = ([AnsibleModule_init (the_spec) true], None, stop Invalid w)
  ∧ remote (final the_env the_main w) = remote w
  ∧ ∀ c, c ∈ trace the_env the_main w →
         (∀ module, c ≠ WapiModule_init module)
         ∧ (∀ wapi ib_obj_type schema, c ≠ WapiModule_run wapi ib_obj_type schema)
         ∧ (∀ kwargs, c ≠ exit_json kwargs).
Proof.
  assert (exec the_env the_main w
          = ([AnsibleModule_init (the_spec) true], None, stop Invalid w)) as Hrun.
  { apply run_refused. by apply the_spec_refused. }
  unfold final, trace. rewrite Hrun. split; [done|]. split; [done|].
  intros c Hc. apply list_elem_of_singleton in Hc as ->. done.
Qed.

End declaration_further.
End module_further.

(** ** The further properties on example values *)

Section further_examples.
Import Example.

Local Abbreviation the_env := (framework check_type Wapi.run).
Local Abbreviation the_main := (main normalize_ib_spec provider_spec).
Local Abbreviation the_spec := (argument_spec normalize_ib_spec provider_spec).
Local Abbreviation start := (task ∅ ∅).

(** A string among the entries raises AttributeError although an unnamed
    entry follows; the unnamed entry first ends in [fail_json] although
    the string follows. *)
Lemma options_first_offender_example :
  exec the_env (options (Cases.module_of (PList Cases.string_first))) start
  = ([raise "AttributeError"], None, stop (Raised "AttributeError") start)
  ∧ exec the_env (options (Cases.module_of (PList Cases.unnamed_first))) start
    = ([fail_json option_msg], None, stop (Failed option_msg) start).
Proof.
  split.
  - apply (options_first_offender the_env
             (Cases.module_of (PList Cases.string_first)) start
             [Tasks.by_name] (PStr "domain-name") [PDict Tasks.unnamed]).
    + reflexivity.
    + by_compute.
    + discriminate.
  - apply (options_first_offender the_env
             (Cases.module_of (PList Cases.unnamed_first)) start
             [Tasks.by_name] (PDict Tasks.unnamed) [PStr "domain-name"])
      with (item := Tasks.unnamed).
    + reflexivity.
    + by_compute.
    + reflexivity.
    + by_compute.
Defined.

(** The result of [options] on two named entries, given to [options]
    again, comes back as it is. *)
Lemma options_idempotent_example :
  exec the_env
    (options (Tasks.with_options (strip_none <$> [Tasks.by_name; Tasks.by_num]))) start
  = ([], Some (strip_none <$> [Tasks.by_name; Tasks.by_num]), start).
Proof.
  apply (options_idempotent the_env
           (Tasks.with_options [Tasks.by_name; Tasks.by_num])
           (Tasks.with_options (strip_none <$> [Tasks.by_name; Tasks.by_num]))
           (strip_none <$> [Tasks.by_name; Tasks.by_num]) [] start start).
  - by_compute.
  - reflexivity.
Defined.

(** The two mappings returned for two named entries each hold a [name] or
    a [num] and no [None]. *)
Lemma options_result_invariant_example :
  Forall (λ opt : dict,
            (is_Some (opt !! "name") ∨ is_Some (opt !! "num"))
            ∧ map_Forall (λ _ v, v ≠ PNone) opt)
    (strip_none <$> [Tasks.by_name; Tasks.by_num]).
Proof.
  apply (options_result_invariant the_env
           (Tasks.with_options [Tasks.by_name; Tasks.by_num])
           (strip_none <$> [Tasks.by_name; Tasks.by_num]) [] start start).
  by_compute.
Defined.

(** Two lists of one named entry each, and the list of both. *)
Lemma options_app_example :
  exec the_env (options (Cases.module_of (PList [PDict Tasks.by_name; PDict Tasks.by_num])))
    start
  = ([], Some ([strip_none Tasks.by_name] ++ [strip_none Tasks.by_num])%list, start).
Proof.
  apply (options_app the_env
           (Cases.module_of (PList [PDict Tasks.by_name]))
           (Cases.module_of (PList [PDict Tasks.by_num]))
           (Cases.module_of (PList [PDict Tasks.by_name; PDict Tasks.by_num]))
           [PDict Tasks.by_name] [PDict Tasks.by_num] start).
  - reflexivity.
  - reflexivity.
  - reflexivity.
  - by_compute.
  - by_compute.
Defined.

(** With the example [provider_spec], the [provider] the framework sees
    is the one of [provider_spec], without [required]. *)
Lemma provider_declaration_example :
  the_spec !! "provider" = Some {[ "type" := PStr "dict" ]}.
Proof.
  apply (provider_declaration_overridden normalize_ib_spec provider_spec
           {[ "type" := PStr "dict" ]}).
  reflexivity.
Defined.

(** The first example task with an [options] parameter is refused. *)
Lemma undeclared_parameter_example :
  exec the_env the_main (task Cases.with_options_parameter ∅)
  = ([AnsibleModule_init (the_spec) true], None,
     stop Invalid (task Cases.with_options_parameter ∅)).
Proof.
  apply (undeclared_parameter_refused check_type Wapi.run normalize_ib_spec provider_spec
           example_keeps_declaration example_provider_only
           (task Cases.with_options_parameter ∅) "options").
  - by_compute.
  - by_compute.
Defined.

(** The first example of the module, "Configure an extensible attribute",
    is refused. *)
Lemma every_task_is_refused_example :
  exec the_env the_main (task Tasks.my_string ∅)
  = ([AnsibleModule_init (the_spec) true], None, stop Invalid (task Tasks.my_string ∅)).
Proof.
  apply (every_task_is_refused check_type Wapi.run normalize_ib_spec provider_spec
           example_keeps_declaration example_provider_only (task Tasks.my_string ∅)).
Defined.

End further_examples.
